(** * project-auth: the account service of the backend

    A shallow embedding of the Express handlers of the backend server
    (register, login, the [authenticateUser] middleware, secrets, sessions)
    over an explicit model of the Mongoose [User] collection, followed by
    the properties of the credential and session lifecycle.

    Conventions.
    - A value that JavaScript may leave [undefined] ([req.body], its
      fields [name] and [password], [req.header("Authorization")]) is an
      [option]; [None] is [undefined].
    - An [await]ed call that rejects, or a call that throws, is the [inl]
      result of the computation; [try ... catch] is [try_catch].  An [inl]
      that leaves an async handler is a rejection nobody handles.
    - The server mounts [cors] and no body parser (lines 15-21), so the
      handlers receive requests whose [req.body] is undefined: [received].
    - The collaborators that live outside the repository (bcrypt, the
      random generators, the query semantics of the store for an undefined
      filter value) are the variables of Section [Server]. *)

From Stdlib Require Import String Ascii List Bool Arith Lia.
From Stdlib Require Import DecimalString DecimalNat.
Import ListNotations.
Open Scope string_scope.
Open Scope list_scope.

(** ** Errors and JSON values *)

(** What can be thrown inside a handler. *)
Inductive exn : Type :=
| BcryptArgsRequired
    (* bcrypt: "data and salt arguments required" / "data and hash arguments required" *)
| ValidationFailed (paths : list string)
    (* Mongoose ValidationError; [paths] are the schema paths that failed *)
| DuplicateKey (path value : string)
    (* E11000, raised by the unique index on [path] *)
| StoreUnavailable
    (* the connection to MongoDB is down: the query or write rejects *)
| TypeError.
    (* a property of undefined is read *)

(** The objects handed to [res.json]. *)
#[warnings="-register-all"]
Inductive jsval : Type :=
| VUndefined
| VBool (b : bool)
| VStr (s : string)
| VErr (e : exn)
| VObj (fields : list (string * jsval)).

(** [e.errors]: only a Mongoose ValidationError carries it. *)
Definition errors_of (e : exn) : jsval :=
  match e with
  | ValidationFailed paths =>
      VObj (map (fun p => (p, VObj [("kind", VStr "required"); ("path", VStr p)])) paths)
  | _ => VUndefined
  end.

(** Field access on an object, [o.k]. *)
Fixpoint assoc (k : string) (fields : list (string * jsval)) : jsval :=
  match fields with
  | [] => VUndefined
  | (k', v) :: rest => if String.eqb k k' then v else assoc k rest
  end.

Definition get (k : string) (o : jsval) : jsval :=
  match o with
  | VObj fields => assoc k fields
  | _ => VUndefined
  end.

Record Response : Type := mkResponse {
  status : nat;
  headers : list (string * string);
  body : jsval
}.

(** [res.status(code).json(obj)]; [res.json(obj)] alone answers 200. *)
Definition json (code : nat) (hs : list (string * string)) (obj : jsval) : Response :=
  mkResponse code hs obj.

(** What a handler does with the request: it answers, or (a middleware)
    it calls [next()]. *)
Inductive Reply : Type :=
| Send (r : Response)
| CallNext.

(** [req.body] when it is an object: the two fields the handlers read. *)
Record Body : Type := mkBody {
  body_name : option string;        (* req.body.name *)
  body_password : option string     (* req.body.password *)
}.

(** The request as a handler sees it. *)
Record Request : Type := mkRequest {
  req_body : option Body;           (* req.body *)
  authorization : option string     (* req.header("Authorization") *)
}.

(** The request as the client sends it: a JSON payload, or none, and the
    Authorization header, or none. *)
Record Incoming : Type := mkIncoming {
  payload : option Body;
  header_authorization : option string
}.

(** What reaches a handler.  The only middleware mounted before the
    routes is [cors]; nothing parses the payload, so [req.body] is
    undefined whatever the client sent. *)
Definition received (m : Incoming) : Request :=
  mkRequest None (header_authorization m).

(** ** UserSchema and the collection *)

(** A persisted document of the [User] model. *)
Record User : Type := mkUser {
  _id : string;
  name : string;
  password : string;
  accessToken : string
}.

(** [new User({name, password})] before [save]: [name] may still be
    undefined; [_id] and the [accessToken] default are already filled in. *)
Record Draft : Type := mkDraft {
  draft_id : string;
  draft_name : option string;
  draft_password : string;
  draft_accessToken : string
}.

(** A [findOne] filter with one field. *)
Inductive Filter : Type :=
| ByName (v : option string)           (* { name: v } *)
| ByAccessToken (v : option string).   (* { accessToken: v } *)

(** What the store does with a filter field whose value is [undefined]:
    the field is left out of the filter, or it is sent as [null]. *)
Inductive UndefinedPolicy : Type :=
| DropField
| SendNull.

(** Round trips to MongoDB, in the order they are issued. *)
Inductive StoreCall : Type :=
| CallFindOne (f : Filter)
| CallInsert (u : User).

Record World : Type := mkWorld {
  docs : list User;          (* the users collection, in insertion order *)
  connected : bool;          (* the MongoDB connection is up *)
  draws : nat;               (* random values drawn so far *)
  calls : list StoreCall     (* store round trips so far *)
}.

Definition set_docs (ds : list User) (w : World) : World :=
  mkWorld ds (connected w) (draws w) (calls w).

Definition set_connected (b : bool) (w : World) : World :=
  mkWorld (docs w) b (draws w) (calls w).

Definition log_call (c : StoreCall) (w : World) : World :=
  mkWorld (docs w) (connected w) (draws w) (calls w ++ [c]).

Definition tick (w : World) : World :=
  mkWorld (docs w) (connected w) (S (draws w)) (calls w).

(** ** Computations of a handler: state and exceptions *)

Definition M (A : Type) : Type := World -> (exn + A) * World.

Definition ret {A} (a : A) : M A := fun w => (inr a, w).

Definition throw {A} (e : exn) : M A := fun w => (inl e, w).

Definition bind {A B} (m : M A) (k : A -> M B) : M B :=
  fun w =>
    match m w with
    | (inr a, w') => k a w'
    | (inl e, w') => (inl e, w')
    end.

Definition try_catch {A} (m : M A) (handler : exn -> M A) : M A :=
  fun w =>
    match m w with
    | (inr a, w') => (inr a, w')
    | (inl e, w') => handler e w'
    end.

Declare Scope handler_scope.
Delimit Scope handler_scope with handler.
Notation "x <- m ;; k" := (bind m (fun x => k))
  (at level 61, m at next level, right associativity) : handler_scope.
Notation "'try' m 'catch' e => h" := (try_catch m (fun e => h))
  (at level 62, m at level 61, e name, h at level 61) : handler_scope.
Open Scope handler_scope.

(** The required validator of a String path: present and not empty. *)
Definition required_ok (v : option string) : bool :=
  match v with
  | Some s => negb (String.eqb s "")
  | None => false
  end.

(** [doc.validate()], run by [save] before anything is sent to MongoDB:
    both paths of the schema are required. *)
Definition failed_paths (d : Draft) : list string :=
  (if required_ok (draft_name d) then [] else ["name"]) ++
  (if required_ok (Some (draft_password d)) then [] else ["password"]).

Definition validate (d : Draft) : exn + User :=
  match failed_paths d, draft_name d with
  | [], Some n => inr (mkUser (draft_id d) n (draft_password d) (draft_accessToken d))
  | paths, _ => inl (ValidationFailed paths)
  end.

Definition has_name (n : string) (u : User) : bool := String.eqb (name u) n.

Definition has_token (t : string) (u : User) : bool := String.eqb (accessToken u) t.

(** ** Response bodies *)

Definition account_body (n id tok : string) : jsval :=
  VObj [("success", VBool true);
        ("response", VObj [("name", VStr n); ("id", VStr id); ("accessToken", VStr tok)])].

Definition register_failure (e : exn) : Response :=
  json 400 []
    (VObj [("success", VBool false);
           ("response", VErr e);
           ("message", VStr "Could not create user");
           ("errors", errors_of e)]).

Definition credentials_do_not_match : Response :=
  json 400 [] (VObj [("success", VBool false); ("response", VStr "Credentials do not match")]).

Definition server_error (e : exn) : Response :=
  json 500 [] (VObj [("success", VBool false); ("response", VErr e)]).

Definition please_log_in : Response :=
  json 401 []
    (VObj [("success", VBool false);
           ("response", VStr "Please log in");
           ("loggedOut", VBool true)]).

Definition secretMessage : string := "This is the secret page! Woop woop".

Definition secret_response : Response :=
  json 200 [] (VObj [("secret", VStr secretMessage)]).

Definition login_origin : string * string :=
  ("Access-Control-Allow-Origin", "https://emilia-michelle-project-auth.netlify.app").

Definition not_found : Response := json 200 [] (VObj [("notFound", VBool true)]).

Definition session_body (id tok : string) : jsval :=
  VObj [("userId", VStr id); ("accessToken", VStr tok)].

(** ** The callback of the Main component (components/Login.js)

    The function the component passes to [.then] once the reply of GET
    /secrets has been parsed; [data] is the parsed body. *)

(** Truthiness of a parsed value, as [if (v)] tests it. *)
Definition truthy (v : jsval) : bool :=
  match v with
  | VUndefined => false
  | VBool b => b
  | VStr s => negb (String.eqb s "")
  | VErr _ => true
  | VObj _ => true
  end.

(** [o.k] where reading a property of undefined throws a TypeError. *)
Definition prop (k : string) (o : jsval) : option jsval :=
  match o with
  | VUndefined => None
  | _ => Some (get k o)
  end.

(** The [.then(data => ...)] of the Main component: the value handed to
    [setSecretMessage]. *)
Definition onSecretsReply (data : jsval) : option jsval :=
  match prop "secret" data with
  | None => None
  | Some secret =>
      if truthy secret then Some secret
      else Some (VStr "Failed to fetch secret message")
  end.

(** ** A concrete instance of the collaborators

    Small stand-ins for bcrypt and the random sources, used to run the
    handlers on concrete requests. *)

Definition decimal (i : nat) : string := NilZero.string_of_uint (Nat.to_uint i).

Definition demo_hash (plaintext salt : string) : string :=
  (plaintext ++ "$" ++ salt)%string.

Definition demo_compare (plaintext digest : string) : bool :=
  String.prefix (plaintext ++ "$")%string digest.

Definition demo_genSalt (i : nat) : string := ("salt" ++ decimal i)%string.

Definition demo_randomBytes128Hex (i : nat) : string :=
  ("c0ffee" ++ decimal i)%string.

Definition demo_newObjectId (i : nat) : string := ("65f0" ++ decimal i)%string.

(** An empty collection behind a live connection. *)
Definition empty_world : World := mkWorld [] true 0 [].

(** An account, and a collection that holds it. *)
Definition alice : User := mkUser "65f01" "alice" "pw$salt0" "c0ffee2".

Definition alice_world : World := mkWorld [alice] true 3 [CallInsert alice].


(** A request whose body is the object [{name, password}]. *)
Definition credentials (n pw : string) : Request :=
  mkRequest (Some (mkBody (Some n) (Some pw))) None.

Definition bearer (tok : string) : Request := mkRequest None (Some tok).

Definition no_header : Request := mkRequest None None.

(** What a client posts to sign up or log in as alice. *)
Definition alice_signup : Incoming :=
  mkIncoming (Some (mkBody (Some "alice") (Some "pw"))) None.

(** The connection is opened with [useNewUrlParser] and
    [useUnifiedTopology] only (line 9); without [ignoreUndefined] the
    driver sends an undefined filter value as null. *)
Definition driver_default : UndefinedPolicy := SendNull.

Section Server.

(** *** Collaborators outside the repository *)

(** bcrypt on strings: the digest of a plaintext under a salt, and the
    check of a plaintext against a digest. *)
Variable hash : string -> string -> string.
Variable compare : string -> string -> bool.

(** The random sources, as functions of the number of the draw:
    [bcrypt.genSaltSync()], [crypto.randomBytes(128).toString("hex")]
    and the ObjectId generator. *)
Variable genSalt : nat -> string.
Variable randomBytes128Hex : nat -> string.
Variable newObjectId : nat -> string.

(** How the store treats an undefined filter value. *)
Variable undefined_policy : UndefinedPolicy.

(** *** bcrypt *)

Definition genSaltSync : M string :=
  fun w => (inr (genSalt (draws w)), tick w).

(** [bcrypt.hashSync(data, salt)] throws when [data] is undefined. *)
Definition hashSync (data : option string) (salt : string) : M string :=
  match data with
  | Some p => ret (hash p salt)
  | None => throw BcryptArgsRequired
  end.

(** [bcrypt.compareSync(data, hash)] throws when [data] is undefined. *)
Definition compareSync (data : option string) (digest : string) : M bool :=
  match data with
  | Some p => ret (compare p digest)
  | None => throw BcryptArgsRequired
  end.

(** *** The User model *)

(** [new User({ name, password })]: the constructor fills in [_id] and
    the [accessToken] default, [crypto.randomBytes(128).toString("hex")]. *)
Definition new_User (n : option string) (pw : string) : M Draft :=
  fun w =>
    let id := newObjectId (draws w) in
    let w1 := tick w in
    let tok := randomBytes128Hex (draws w1) in
    (inr (mkDraft id n pw tok), tick w1).

(** [doc.save()]: validation, then one insert, which the unique index
    on [name] rejects when the name is taken. *)
Definition save (d : Draft) : M User :=
  fun w =>
    match validate d with
    | inl e => (inl e, w)
    | inr u =>
        let w' := log_call (CallInsert u) w in
        if connected w then
          if existsb (has_name (name u)) (docs w)
          then (inl (DuplicateKey "name" (name u)), w')
          else (inr u, set_docs (docs w ++ [u]) w')
        else (inl StoreUnavailable, w')
    end.

(** Does a persisted document satisfy the filter?  Every persisted
    document has a string [name] and a string [accessToken], so a filter
    value sent as null matches none of them. *)
Definition field_matches (v : option string) (actual : string) : bool :=
  match v with
  | Some s => String.eqb actual s
  | None =>
      match undefined_policy with
      | DropField => true
      | SendNull => false
      end
  end.

Definition matches (f : Filter) (u : User) : bool :=
  match f with
  | ByName v => field_matches v (name u)
  | ByAccessToken v => field_matches v (accessToken u)
  end.

(** [User.findOne(filter)]: the first matching document, or null. *)
Definition findOne (f : Filter) : M (option User) :=
  fun w =>
    let w' := log_call (CallFindOne f) w in
    if connected w then (inr (find (matches f) (docs w)), w')
    else (inl StoreUnavailable, w').

(** *** The handlers *)

(** [const { name, password } = req.body]: destructuring undefined
    throws. *)
Definition destructure (b : option Body) : M (option string * option string) :=
  match b with
  | Some o => ret (body_name o, body_password o)
  | None => throw TypeError
  end.

(** [req.body.k]: reading a property of undefined throws. *)
Definition member (k : Body -> option string) (b : option Body) : M (option string) :=
  match b with
  | Some o => ret (k o)
  | None => throw TypeError
  end.

(** [app.post("/register", ...)]; the destructuring of line 56 stands
    before the [try]. *)
Definition register (req : Request) : M Reply :=
  fields <- destructure (req_body req) ;;
  (try
    (salt <- genSaltSync ;;
     digest <- hashSync (snd fields) salt ;;
     draft <- new_User (fst fields) digest ;;
     newUser <- save draft ;;
     ret (Send (json 201 [] (account_body (name newUser) (_id newUser) (accessToken newUser)))))
  catch e => ret (Send (register_failure e))).

(** [app.post("/login", ...)]; the destructuring of line 83 stands before
    the [try]. *)
Definition login (req : Request) : M Reply :=
  fields <- destructure (req_body req) ;;
  (try
    (user <- findOne (ByName (fst fields)) ;;
     match user with
     | Some u =>
         ok <- compareSync (snd fields) (password u) ;;
         if ok then
           ret (Send (json 200 [login_origin]
                        (account_body (name u) (_id u) (accessToken u))))
         else ret (Send credentials_do_not_match)
     | None => ret (Send credentials_do_not_match)
     end)
  catch e => ret (Send (server_error e))).

(** [authenticateUser], the middleware (mounted on no route). *)
Definition authenticateUser (req : Request) : M Reply :=
  try
    (user <- findOne (ByAccessToken (authorization req)) ;;
     match user with
     | Some _ => ret CallNext
     | None => ret (Send please_log_in)
     end)
  catch e => ret (Send (server_error e)).

(** [app.get("/secrets", ...)] *)
Definition secrets (req : Request) : M Reply :=
  try
    (user <- findOne (ByAccessToken (authorization req)) ;;
     match user with
     | Some _ => ret (Send secret_response)
     | None => ret (Send please_log_in)
     end)
  catch e => ret (Send (server_error e)).

(** [app.post("/sessions", ...)]: no [try]; what is thrown leaves the
    handler. *)
Definition sessions (req : Request) : M Reply :=
  n <- member body_name (req_body req) ;;
  user <- findOne (ByName n) ;;
  match user with
  | Some u =>
      pw <- member body_password (req_body req) ;;
      ok <- compareSync pw (password u) ;;
      if ok then ret (Send (json 200 [] (session_body (_id u) (accessToken u))))
      else ret (Send not_found)
  | None => ret (Send not_found)
  end.

(** *** Routes and histories *)

(** The routes of [PATHS] that reach the store. *)
Inductive Route : Type :=
| POST_register
| POST_login
| GET_secrets
| POST_sessions.

Definition dispatch (r : Route) : Request -> M Reply :=
  match r with
  | POST_register => register
  | POST_login => login
  | GET_secrets => secrets
  | POST_sessions => sessions
  end.

(** The application as mounted: the handler of the route, run on what
    reaches it of the incoming request. *)
Definition app (r : Route) (m : Incoming) : M Reply := dispatch r (received m).

(** What happens to the server: a request is handled, the middleware is
    run on a request, or the connection to the store goes up or down. *)
Inductive Event : Type :=
| Handle (r : Route) (req : Request)
| Middleware (req : Request)
| Connection (up : bool).

(** The server process.  The handlers are async functions: what one of
    them throws is a rejected promise that nothing handles, and the
    process ends with it. *)
Inductive Process : Type :=
| Serving (w : World)
| Exited (w : World).

Definition world_of (p : Process) : World :=
  match p with
  | Serving w => w
  | Exited w => w
  end.

Definition settle (out : (exn + Reply) * World) : Process :=
  match out with
  | (inr _, w) => Serving w
  | (inl _, w) => Exited w
  end.

Definition step (p : Process) (ev : Event) : Process :=
  match p, ev with
  | Serving w, Handle r req => settle (dispatch r req w)
  | Serving w, Middleware req => settle (authenticateUser req w)
  | Serving w, Connection up => Serving (set_connected up w)
  | Exited w, Connection up => Exited (set_connected up w)
  | Exited w, _ => Exited w
  end.

(** The world after a history, starting from a serving process. *)
Definition run (evs : list Event) (w : World) : World :=
  world_of (fold_left step evs (Serving w)).

(** A history of incoming requests, each handled by the application as
    mounted. *)
Definition serve (ms : list (Route * Incoming)) (w : World) : World :=
  run (map (fun rm => Handle (fst rm) (received (snd rm))) ms) w.

(** The account [register] persists in world [w] when it answers 201. *)
Definition registered_user (w : World) (n pw : string) : User :=
  mkUser (newObjectId (S (draws w))) n
         (hash pw (genSalt (draws w)))
         (randomBytes128Hex (S (S (draws w)))).

(** The world after a [register] that answered 201. *)
Definition after_register (w : World) (u : User) : World :=
  set_docs (docs w ++ [u]) (log_call (CallInsert u) (tick (tick (tick w)))).

(** Every stored token is one of the values drawn so far. *)
Definition tokens_drawn (w : World) : Prop :=
  forall u, In u (docs w) -> exists i, i < draws w /\ accessToken u = randomBytes128Hex i.

(** No two accounts share a name; no two accounts share a token. *)
Definition names_unique (w : World) : Prop := NoDup (map name (docs w)).

Definition tokens_unique (w : World) : Prop := NoDup (map accessToken (docs w)).

(** ** What each handler computes *)

Lemma validate_inr (d : Draft) (u : User) :
  validate d = inr u ->
  exists n, draft_name d = Some n /\ n <> "" /\ draft_password d <> "" /\
            u = mkUser (draft_id d) n (draft_password d) (draft_accessToken d).
Proof.
  unfold validate, failed_paths, required_ok.
  destruct (draft_name d) as [n|]; simpl.
  - destruct (String.eqb_spec n ""); simpl; try discriminate.
    destruct (String.eqb_spec (draft_password d) ""); simpl; try discriminate.
    intros [= <-]. exists n. auto.
  - destruct (String.eqb (draft_password d) ""); discriminate.
Qed.

Lemma validate_ok (d : Draft) (n : string) :
  draft_name d = Some n -> n <> "" -> draft_password d <> "" ->
  validate d = inr (mkUser (draft_id d) n (draft_password d) (draft_accessToken d)).
Proof.
  intros Hn Hne Hpw. unfold validate, failed_paths, required_ok. rewrite Hn.
  destruct (String.eqb_spec n ""); [contradiction|].
  destruct (String.eqb_spec (draft_password d) ""); [contradiction|]. reflexivity.
Qed.

(** [register], step by step. *)
Lemma register_eq (req : Request) (w : World) :
  register req w =
  match req_body req with
  | None => (inl TypeError, w)
  | Some b =>
      match body_password b with
      | None => (inr (Send (register_failure BcryptArgsRequired)), tick w)
      | Some pw =>
          let d := mkDraft (newObjectId (S (draws w))) (body_name b)
                           (hash pw (genSalt (draws w)))
                           (randomBytes128Hex (S (S (draws w)))) in
          let w3 := tick (tick (tick w)) in
          match validate d with
          | inl e => (inr (Send (register_failure e)), w3)
          | inr u =>
              let w4 := log_call (CallInsert u) w3 in
              if connected w then
                if existsb (has_name (name u)) (docs w)
                then (inr (Send (register_failure (DuplicateKey "name" (name u)))), w4)
                else (inr (Send (json 201 [] (account_body (name u) (_id u) (accessToken u)))),
                      set_docs (docs w ++ [u]) w4)
              else (inr (Send (register_failure StoreUnavailable)), w4)
          end
      end
  end.
Proof.
  unfold register, destructure, try_catch, bind, genSaltSync, hashSync, new_User, save,
    ret, throw.
  destruct (req_body req) as [b|]; simpl; [|reflexivity].
  destruct (body_password b) as [pw|]; simpl; [|reflexivity].
  destruct (validate _) as [e|u]; simpl; [reflexivity|].
  destruct (connected w); simpl; [|reflexivity].
  destruct (existsb _ _); reflexivity.
Qed.

(** [login], step by step. *)
Lemma login_eq (req : Request) (w : World) :
  login req w =
  match req_body req with
  | None => (inl TypeError, w)
  | Some b =>
      let w1 := log_call (CallFindOne (ByName (body_name b))) w in
      if connected w then
        match find (matches (ByName (body_name b))) (docs w) with
        | Some u =>
            match body_password b with
            | Some pw =>
                if compare pw (password u)
                then (inr (Send (json 200 [login_origin]
                                   (account_body (name u) (_id u) (accessToken u)))), w1)
                else (inr (Send credentials_do_not_match), w1)
            | None => (inr (Send (server_error BcryptArgsRequired)), w1)
            end
        | None => (inr (Send credentials_do_not_match), w1)
        end
      else (inr (Send (server_error StoreUnavailable)), w1)
  end.
Proof.
  unfold login, destructure, try_catch, bind, findOne, compareSync, ret, throw.
  destruct (req_body req) as [b|]; simpl; [|reflexivity].
  destruct (connected w); simpl; [|reflexivity].
  destruct (find _ _) as [u|]; simpl; [|reflexivity].
  destruct (body_password b) as [pw|]; simpl; [|reflexivity].
  destruct (compare pw (password u)); reflexivity.
Qed.

(** [sessions], step by step. *)
Lemma sessions_eq (req : Request) (w : World) :
  sessions req w =
  match req_body req with
  | None => (inl TypeError, w)
  | Some b =>
      let w1 := log_call (CallFindOne (ByName (body_name b))) w in
      if connected w then
        match find (matches (ByName (body_name b))) (docs w) with
        | Some u =>
            match body_password b with
            | Some pw =>
                if compare pw (password u)
                then (inr (Send (json 200 [] (session_body (_id u) (accessToken u)))), w1)
                else (inr (Send not_found), w1)
            | None => (inl BcryptArgsRequired, w1)
            end
        | None => (inr (Send not_found), w1)
        end
      else (inl StoreUnavailable, w1)
  end.
Proof.
  unfold sessions, member, bind, findOne, compareSync, ret, throw.
  destruct (req_body req) as [b|]; simpl; [|reflexivity].
  destruct (connected w); simpl; [|reflexivity].
  destruct (find _ _) as [u|]; simpl; [|reflexivity].
  destruct (body_password b) as [pw|]; simpl; [|reflexivity].
  destruct (compare pw (password u)); reflexivity.
Qed.

(** [secrets] and [authenticateUser], step by step. *)
Lemma secrets_eq (req : Request) (w : World) :
  secrets req w =
  let w1 := log_call (CallFindOne (ByAccessToken (authorization req))) w in
  if connected w then
    match find (matches (ByAccessToken (authorization req))) (docs w) with
    | Some _ => (inr (Send secret_response), w1)
    | None => (inr (Send please_log_in), w1)
    end
  else (inr (Send (server_error StoreUnavailable)), w1).
Proof.
  unfold secrets, try_catch, bind, findOne, ret.
  destruct (connected w); simpl; [|reflexivity].
  destruct (find _ _); reflexivity.
Qed.

Lemma authenticateUser_eq (req : Request) (w : World) :
  authenticateUser req w =
  let w1 := log_call (CallFindOne (ByAccessToken (authorization req))) w in
  if connected w then
    match find (matches (ByAccessToken (authorization req))) (docs w) with
    | Some _ => (inr CallNext, w1)
    | None => (inr (Send please_log_in), w1)
    end
  else (inr (Send (server_error StoreUnavailable)), w1).
Proof.
  unfold authenticateUser, try_catch, bind, findOne, ret.
  destruct (connected w); simpl; [|reflexivity].
  destruct (find _ _); reflexivity.
Qed.

(** ** Lookups *)

Lemma matches_name (n : string) (u : User) : matches (ByName (Some n)) u = has_name n u.
Proof. reflexivity. Qed.

Lemma matches_token (t : string) (u : User) :
  matches (ByAccessToken (Some t)) u = has_token t u.
Proof. reflexivity. Qed.

Lemma find_name (n : string) (ds : list User) :
  find (matches (ByName (Some n))) ds = find (has_name n) ds.
Proof. reflexivity. Qed.

Lemma find_token (t : string) (ds : list User) :
  find (matches (ByAccessToken (Some t))) ds = find (has_token t) ds.
Proof. reflexivity. Qed.

Lemma existsb_has_token (t : string) (ds : list User) :
  existsb (has_token t) ds = true <-> exists u, In u ds /\ accessToken u = t.
Proof.
  rewrite existsb_exists. unfold has_token.
  split; intros [u [Hin H]]; exists u; split; auto; now apply String.eqb_eq.
Qed.

Lemma find_existsb {A} (f : A -> bool) (l : list A) :
  find f l = None <-> existsb f l = false.
Proof.
  induction l as [|a l IH]; simpl; [tauto|].
  destruct (f a); simpl; [split; discriminate | exact IH].
Qed.

Lemma find_none_token (t : string) (ds : list User) :
  (forall u, In u ds -> accessToken u <> t) -> find (has_token t) ds = None.
Proof.
  intros H. apply find_existsb.
  destruct (existsb (has_token t) ds) eqn:E; [|reflexivity].
  apply existsb_has_token in E. destruct E as [u [Hin Ht]]. now apply H in Hin.
Qed.

(** ** Token lookup and the secret page *)

(** C1. With the store reachable, GET /secrets with a presented token
    answers 200 with the fixed secret string exactly when some persisted
    account stores that token; when no account stores it, the token
    lookup returns null and the answer is 401 with [loggedOut: true]. *)
Theorem secrets_iff_token_persisted (w : World) (req : Request) (tok : string) :
  connected w = true ->
  authorization req = Some tok ->
  (fst (secrets req w) = inr (Send secret_response) <->
   exists u, In u (docs w) /\ accessToken u = tok)
  /\ ((forall u, In u (docs w) -> accessToken u <> tok) ->
      fst (findOne (ByAccessToken (Some tok)) w) = inr None
      /\ fst (secrets req w) = inr (Send please_log_in))
  /\ status secret_response = 200
  /\ get "secret" (body secret_response) = VStr "This is the secret page! Woop woop"
  /\ status please_log_in = 401
  /\ get "loggedOut" (body please_log_in) = VBool true.
Proof.
  intros Hup Hauth. rewrite secrets_eq. unfold findOne. rewrite Hauth, Hup. cbv zeta.
  rewrite find_token.
  repeat split.
  - destruct (find _ (docs w)) as [u|] eqn:Hfind; simpl; [|discriminate].
    intros _. apply find_some in Hfind. destruct Hfind as [Hin Hm].
    exists u. split; [exact Hin|]. now apply String.eqb_eq.
  - intros Hex. apply existsb_has_token in Hex.
    destruct (find _ (docs w)) as [u|] eqn:Hfind; simpl; [reflexivity|].
    apply find_existsb in Hfind. congruence.
  - simpl. f_equal. now apply find_none_token.
  - rewrite find_none_token by assumption. reflexivity.
Qed.

(** ** Registration *)

(** Every run of [register] throws on an undefined body, or answers 400
    and leaves the collection as it was, or answers 201 and appends the
    new account. *)
Lemma register_cases (req : Request) (w : World) :
  (req_body req = None /\ register req w = (inl TypeError, w))
  \/ (exists e, fst (register req w) = inr (Send (register_failure e))
                /\ docs (snd (register req w)) = docs w)
  \/ (exists n pw,
        req_body req = Some (mkBody (Some n) (Some pw)) /\ n <> ""
        /\ connected w = true /\ existsb (has_name n) (docs w) = false
        /\ register req w =
           (inr (Send (json 201 [] (account_body n (_id (registered_user w n pw))
                                                 (accessToken (registered_user w n pw))))),
            after_register w (registered_user w n pw))).
Proof.
  rewrite register_eq.
  destruct (req_body req) as [[bn bp]|]; [|left; split; reflexivity]. simpl.
  destruct bp as [pw|]; [|right; left; eexists; split; reflexivity].
  cbv zeta. destruct (validate _) as [e|u] eqn:V; [right; left; eexists; split; reflexivity|].
  apply validate_inr in V. destruct V as [n [Hn [Hne [_ ->]]]]. simpl in Hn |- *.
  destruct (connected w) eqn:Hup; [|right; left; eexists; split; reflexivity].
  destruct (existsb (has_name n) (docs w)) eqn:Hdup;
    [right; left; eexists; split; reflexivity|].
  right. right. exists n, pw. subst bn. repeat split; auto.
Qed.

Lemma register_draws (req : Request) (w : World) : draws w <= draws (snd (register req w)).
Proof.
  rewrite register_eq. destruct (req_body req) as [b|]; [|simpl; lia].
  destruct (body_password b); cbv zeta; simpl; [|lia].
  destruct (validate _); simpl; [lia|].
  destruct (connected w); simpl; [|lia].
  destruct (existsb _ _); simpl; lia.
Qed.

(** ** Histories only append accounts *)

(** Login and sessions change neither the collection nor the draws. *)
Lemma login_world (req : Request) (w : World) :
  docs (snd (login req w)) = docs w /\ draws (snd (login req w)) = draws w.
Proof.
  rewrite login_eq. destruct (req_body req) as [b|]; [|split; reflexivity].
  cbv zeta.
  destruct (connected w); [|split; reflexivity].
  destruct (find _ _); [|split; reflexivity].
  destruct (body_password b); [|split; reflexivity].
  destruct (compare _ _); split; reflexivity.
Qed.

Lemma sessions_world (req : Request) (w : World) :
  docs (snd (sessions req w)) = docs w /\ draws (snd (sessions req w)) = draws w.
Proof.
  rewrite sessions_eq. destruct (req_body req) as [b|]; [|split; reflexivity].
  cbv zeta.
  destruct (connected w); [|split; reflexivity].
  destruct (find _ _); [|split; reflexivity].
  destruct (body_password b); [|split; reflexivity].
  destruct (compare _ _); split; reflexivity.
Qed.

Lemma login_docs (req : Request) (w : World) : docs (snd (login req w)) = docs w.
Proof. apply login_world. Qed.

Lemma sessions_docs (req : Request) (w : World) : docs (snd (sessions req w)) = docs w.
Proof. apply sessions_world. Qed.

Lemma secrets_docs (req : Request) (w : World) : docs (snd (secrets req w)) = docs w.
Proof.
  rewrite secrets_eq. cbv zeta.
  destruct (connected w); [|reflexivity]. destruct (find _ _); reflexivity.
Qed.

Lemma authenticateUser_docs (req : Request) (w : World) :
  docs (snd (authenticateUser req w)) = docs w.
Proof.
  rewrite authenticateUser_eq. cbv zeta.
  destruct (connected w); [|reflexivity]. destruct (find _ _); reflexivity.
Qed.

Lemma world_of_settle (out : (exn + Reply) * World) : world_of (settle out) = snd out.
Proof. destruct out as [[e|r] w]; reflexivity. Qed.

Lemma step_docs (p : Process) (ev : Event) :
  docs (world_of (step p ev)) = docs (world_of p)
  \/ exists u, docs (world_of (step p ev)) = docs (world_of p) ++ [u]
               /\ existsb (has_name (name u)) (docs (world_of p)) = false.
Proof.
  destruct p as [w|w]; [|left; destruct ev; reflexivity].
  destruct ev as [[| | |] req | req | up]; simpl; rewrite ?world_of_settle.
  - destruct (register_cases req w)
      as [[_ Heq] | [[e [_ He]] | [n [pw [_ [_ [_ [Hdup Heq]]]]]]]].
    + left. rewrite Heq. reflexivity.
    + left. exact He.
    + right. rewrite Heq. simpl. eexists. split; [reflexivity|exact Hdup].
  - left. apply login_docs.
  - left. apply secrets_docs.
  - left. apply sessions_docs.
  - left. apply authenticateUser_docs.
  - left. reflexivity.
Qed.

Lemma fold_docs (evs : list Event) (p : Process) :
  exists added, docs (world_of (fold_left step evs p)) = docs (world_of p) ++ added.
Proof.
  revert p. induction evs as [|ev evs IH]; intros p; simpl.
  - exists []. now rewrite app_nil_r.
  - destruct (IH (step p ev)) as [added Hadd]. rewrite Hadd.
    destruct (step_docs p ev) as [-> | [u [-> _]]].
    + now exists added.
    + exists (u :: added). now rewrite <- app_assoc.
Qed.

Lemma run_docs (evs : list Event) (w : World) :
  exists added, docs (run evs w) = docs w ++ added.
Proof. exact (fold_docs evs (Serving w)). Qed.

(** C7. Login, the secrets route, the sessions route and the
    [authenticateUser] middleware leave the collection exactly as it
    was, and over any history the accounts already persisted stay in
    place, unchanged: the collection only grows at its end. *)
Theorem accounts_never_change (w : World) (req : Request) (evs : list Event) :
  docs (snd (login req w)) = docs w
  /\ docs (snd (secrets req w)) = docs w
  /\ docs (snd (sessions req w)) = docs w
  /\ docs (snd (authenticateUser req w)) = docs w
  /\ exists added, docs (run evs w) = docs w ++ added.
Proof.
  repeat split.
  - apply login_docs.
  - apply secrets_docs.
  - apply sessions_docs.
  - apply authenticateUser_docs.
  - apply run_docs.
Qed.

(** ** Stored tokens come from the generator *)

Lemma step_tokens_drawn (p : Process) (ev : Event) :
  tokens_drawn (world_of p) -> tokens_drawn (world_of (step p ev)).
Proof.
  intros Hinv.
  assert (Hkeep : forall w', docs w' = docs (world_of p) ->
                             draws (world_of p) <= draws w' -> tokens_drawn w').
  { intros w' Hd Hle u Hu. rewrite Hd in Hu. destruct (Hinv u Hu) as [i [Hi Ht]].
    exists i. split; [lia|exact Ht]. }
  destruct p as [w|w]; [|apply Hkeep; destruct ev; simpl; auto].
  simpl in Hinv, Hkeep.
  destruct ev as [[| | |] req | req | up]; simpl; rewrite ?world_of_settle.
  - destruct (register_cases req w)
      as [[_ Heq] | [[e [_ He]] | [n [pw [_ [_ [_ [_ Heq]]]]]]]].
    + rewrite Heq. exact Hinv.
    + apply Hkeep; [exact He | apply register_draws].
    + rewrite Heq. simpl. intros u Hu. simpl in Hu. apply in_app_iff in Hu.
      destruct Hu as [Hu | [<- | []]].
      * destruct (Hinv u Hu) as [i [Hi Ht]]. exists i. split; [simpl; lia|exact Ht].
      * exists (S (S (draws w))). split; [simpl; lia|reflexivity].
  - destruct (login_world req w) as [Hd Hdr]. apply Hkeep; [exact Hd|lia].
  - apply Hkeep; [apply secrets_docs|]. rewrite secrets_eq. cbv zeta.
    destruct (connected w); [|simpl; lia]. destruct (find _ _); simpl; lia.
  - destruct (sessions_world req w) as [Hd Hdr]. apply Hkeep; [exact Hd|lia].
  - apply Hkeep; [apply authenticateUser_docs|]. rewrite authenticateUser_eq. cbv zeta.
    destruct (connected w); [|simpl; lia]. destruct (find _ _); simpl; lia.
  - apply Hkeep; simpl; [reflexivity|lia].
Qed.

(** ** Invariants of the collection *)

Lemma NoDup_snoc {A} (l : list A) (a : A) : NoDup l -> ~ In a l -> NoDup (l ++ [a]).
Proof.
  intros Hl Ha. apply NoDup_app; [exact Hl | repeat constructor; intros [] |].
  intros b Hb [<- | []]. contradiction.
Qed.

Lemma existsb_has_name (n : string) (ds : list User) :
  existsb (has_name n) ds = true <-> In n (map name ds).
Proof.
  rewrite existsb_exists, in_map_iff. unfold has_name.
  split; intros [u [H1 H2]]; exists u.
  - split; [now apply String.eqb_eq|exact H1].
  - split; [exact H2|now apply String.eqb_eq].
Qed.

Lemma find_unique_key (key : User -> string) (l : list User) (u : User) :
  NoDup (map key l) -> In u l ->
  find (fun v => String.eqb (key v) (key u)) l = Some u.
Proof.
  induction l as [|a l IH]; intros Hnd Hu; [destruct Hu|].
  simpl in Hnd. inversion Hnd as [|? ? Hnotin Hl]; subst.
  simpl. destruct (String.eqb_spec (key a) (key u)) as [E|E].
  - destruct Hu as [-> | Hu]; [reflexivity|].
    exfalso. apply Hnotin. rewrite E. now apply in_map.
  - destruct Hu as [-> | Hu]; [contradiction|]. now apply IH.
Qed.

(** X1. The unique index at work: when no two accounts share a name, no
    history of requests and connection changes produces two accounts with
    one name, and a lookup by the name of a persisted account returns
    that account. *)
Theorem names_stay_unique (evs : list Event) (w : World) :
  names_unique w ->
  names_unique (run evs w)
  /\ forall u, In u (docs (run evs w)) ->
               find (matches (ByName (Some (name u)))) (docs (run evs w)) = Some u.
Proof.
  intros Hw.
  assert (Hrun : names_unique (run evs w)).
  { unfold run. change w with (world_of (Serving w)) in Hw.
    generalize dependent (Serving w). clear w.
    induction evs as [|ev evs IH]; intros p Hp; simpl; [exact Hp|].
    apply IH. unfold names_unique in *.
    destruct (step_docs p ev) as [-> | [u [-> Hfresh]]]; [exact Hp|].
    rewrite map_app. simpl. apply NoDup_snoc; [exact Hp|].
    intros Hin. apply existsb_has_name in Hin. congruence. }
  split; [exact Hrun|].
  intros u Hu. rewrite find_name. now apply (find_unique_key name).
Qed.

(** X2. When the token generator never repeats a value and every stored
    token was drawn from it, no history produces two accounts with one
    access token: a token identifies at most one account, and the lookup
    by the token of a persisted account returns that account. *)
Theorem tokens_stay_unique (evs : list Event) (w : World) :
  (forall i j, randomBytes128Hex i = randomBytes128Hex j -> i = j) ->
  tokens_drawn w ->
  tokens_unique w ->
  tokens_unique (run evs w)
  /\ forall u, In u (docs (run evs w)) ->
               find (matches (ByAccessToken (Some (accessToken u)))) (docs (run evs w))
               = Some u.
Proof.
  intros Hinj Hdrawn Hw.
  assert (Hrun : tokens_unique (run evs w)).
  { unfold run. change w with (world_of (Serving w)) in Hw, Hdrawn.
    generalize dependent (Serving w). clear w.
    induction evs as [|ev evs IH]; intros p Hdrawn Hp; simpl; [exact Hp|].
    apply IH; [now apply step_tokens_drawn|]. unfold tokens_unique in *.
    destruct p as [w|w]; [|destruct ev; exact Hp].
    simpl in Hdrawn, Hp.
    destruct ev as [[| | |] req | req | up]; simpl; rewrite ?world_of_settle;
      try (rewrite login_docs; exact Hp); try (rewrite secrets_docs; exact Hp);
      try (rewrite sessions_docs; exact Hp); try (rewrite authenticateUser_docs; exact Hp);
      try exact Hp.
    destruct (register_cases req w)
      as [[_ Heq] | [[e [_ He]] | [n [pw [_ [_ [_ [_ Heq]]]]]]]].
    - rewrite Heq. exact Hp.
    - rewrite He. exact Hp.
    - rewrite Heq. simpl. rewrite map_app. simpl. apply NoDup_snoc; [exact Hp|].
      intros Hin. apply in_map_iff in Hin. destruct Hin as [v [Hv Hin]].
      destruct (Hdrawn v Hin) as [i [Hi Hti]]. rewrite Hti in Hv.
      apply Hinj in Hv. lia. }
  split; [exact Hrun|].
  intros u Hu. rewrite find_token. now apply (find_unique_key accessToken).
Qed.

(** ** The application as mounted *)

Lemma app_register (m : Incoming) (w : World) : app POST_register m w = (inl TypeError, w).
Proof. unfold app. simpl. rewrite register_eq. reflexivity. Qed.

Lemma app_login (m : Incoming) (w : World) : app POST_login m w = (inl TypeError, w).
Proof. unfold app. simpl. rewrite login_eq. reflexivity. Qed.

Lemma app_sessions (m : Incoming) (w : World) : app POST_sessions m w = (inl TypeError, w).
Proof. unfold app. simpl. rewrite sessions_eq. reflexivity. Qed.

Lemma app_docs (r : Route) (m : Incoming) (w : World) : docs (snd (app r m w)) = docs w.
Proof.
  destruct r.
  - now rewrite app_register.
  - now rewrite app_login.
  - apply secrets_docs.
  - now rewrite app_sessions.
Qed.

Lemma serve_docs (ms : list (Route * Incoming)) (w : World) : docs (serve ms w) = docs w.
Proof.
  unfold serve, run. change (docs w) with (docs (world_of (Serving w))).
  generalize (Serving w). induction ms as [|[r m] ms IH]; intros p; simpl; [reflexivity|].
  rewrite IH. destruct p as [v|v]; simpl; [|reflexivity].
  rewrite world_of_settle. apply (app_docs r m v).
Qed.


(** C3. As the server is mounted, a registration with a missing name, a
    missing password or a taken name is not answered 400: like every
    registration it throws before the [try] and is answered by nothing.
    Nothing is persisted, so after two registrations of a name the
    collection holds the records of that name it held before, none when
    the name was new. *)
Theorem register_rejection_as_mounted (m m' : Incoming) (w : World) (n : string) :
  fst (app POST_register m w) = inl TypeError
  /\ (forall e, fst (app POST_register m w) <> inr (Send (register_failure e)))
  /\ snd (app POST_register m w) = w
  /\ filter (has_name n) (docs (serve [(POST_register, m); (POST_register, m')] w))
     = filter (has_name n) (docs w).
Proof.
  rewrite app_register, serve_docs. repeat split. intros e. discriminate.
Qed.

(** C4. As the server is mounted, a login for an unknown name or with a
    wrong password is not answered 400 "Credentials do not match": like
    every login it throws before the [try], no lookup is made and no
    reply is sent. *)
Theorem login_as_mounted (m : Incoming) (w : World) :
  app POST_login m w = (inl TypeError, w)
  /\ fst (app POST_login m w) <> inr (Send credentials_do_not_match)
  /\ calls (snd (app POST_login m w)) = calls w.
Proof.
  rewrite app_login. repeat split. discriminate.
Qed.


(** C6. As the server is mounted, no history of requests persists a
    password digest: the collection, and with it every stored password,
    stays what it was, and a login afterwards throws like every login. *)
Theorem no_digest_stored_as_mounted
    (ms : list (Route * Incoming)) (m : Incoming) (w : World) :
  map password (docs (serve ms w)) = map password (docs w)
  /\ fst (app POST_login m (serve ms w)) = inl TypeError.
Proof.
  rewrite serve_docs, app_login. split; reflexivity.
Qed.

(** C8. As the server is mounted, POST /sessions and POST /login both
    throw on the undefined [req.body]: neither succeeds, and sessions
    does not answer [{notFound: true}]; it makes no lookup and sends
    nothing. *)
Theorem sessions_as_mounted (m : Incoming) (w : World) :
  app POST_sessions m w = (inl TypeError, w)
  /\ app POST_login m w = (inl TypeError, w)
  /\ fst (app POST_sessions m w) <> inr (Send not_found).
Proof.
  rewrite app_sessions, app_login. repeat split. discriminate.
Qed.

(** ** When the store cannot be reached *)


(** ** A request without an Authorization header *)

(** C10, as the code has it. A GET /secrets without the header sends the
    lookup with the undefined token; the store sends the undefined value
    as null, no persisted account matches, and the answer is 401 with
    [loggedOut: true] whether or not the collection holds accounts.  The
    [authenticateUser] middleware decides in the same way. *)
Theorem absent_header_answered_401 (req : Request) (w : World) :
  undefined_policy = driver_default ->
  authorization req = None ->
  connected w = true ->
  calls (snd (secrets req w)) = calls w ++ [CallFindOne (ByAccessToken None)]
  /\ fst (findOne (ByAccessToken None) w) = inr None
  /\ fst (secrets req w) = inr (Send please_log_in)
  /\ fst (authenticateUser req w) = inr (Send please_log_in)
  /\ status please_log_in = 401
  /\ get "loggedOut" (body please_log_in) = VBool true.
Proof.
  intros Hpol Hauth Hup.
  rewrite secrets_eq, authenticateUser_eq. unfold findOne. rewrite Hauth, Hup. cbv zeta.
  assert (Hfind : find (matches (ByAccessToken None)) (docs w) = None).
  { unfold matches, field_matches. rewrite Hpol.
    induction (docs w) as [|u ds IH]; simpl; auto. }
  rewrite Hfind. repeat split.
Qed.

(** ** Further properties of the handlers *)


(** X6. The [authenticateUser] middleware and the secrets route decide
    alike on every request: the middleware calls [next()] exactly when
    the route answers with the secret, every response the middleware
    sends is the response the route sends, and both leave the same
    world. *)
Theorem middleware_decides_as_secrets (req : Request) (w : World) :
  (fst (authenticateUser req w) = inr CallNext
   <-> fst (secrets req w) = inr (Send secret_response))
  /\ (forall r, fst (authenticateUser req w) = inr (Send r) ->
               fst (secrets req w) = inr (Send r))
  /\ (forall r, fst (secrets req w) = inr (Send r) ->
               r = secret_response \/ fst (authenticateUser req w) = inr (Send r))
  /\ snd (authenticateUser req w) = snd (secrets req w).
Proof.
  rewrite authenticateUser_eq, secrets_eq. cbv zeta.
  destruct (connected w); [destruct (find _ _)|]; simpl;
    repeat split; intros; try discriminate; try reflexivity; try assumption;
    try (left; congruence); try (right; assumption).
Qed.

(** X11. What the Main component shows for the reply of GET /secrets.
    The route always sends a response; the callback shows the secret
    exactly when the status is 200, and for every other reply, the 401
    with [loggedOut] as well as the 500, the one text "Failed to fetch
    secret message". *)
Theorem main_shows_secret_or_failure (req : Request) (w : World) :
  exists r,
    fst (secrets req w) = inr (Send r)
    /\ ((status r = 200 /\ onSecretsReply (body r) = Some (VStr secretMessage))
        \/ (status r <> 200
            /\ onSecretsReply (body r) = Some (VStr "Failed to fetch secret message")))
    /\ onSecretsReply (body please_log_in) = onSecretsReply (body (server_error StoreUnavailable)).
Proof.
  rewrite secrets_eq. cbv zeta.
  destruct (connected w); [destruct (find _ _)|]; eexists;
    (split; [reflexivity|]); (split; [|reflexivity]).
  - left. split; reflexivity.
  - right. split; [discriminate|reflexivity].
  - right. split; [discriminate|reflexivity].
Qed.

End Server.

(** * The handlers on concrete requests *)

Abbreviation demo_register :=
  (register demo_hash demo_genSalt demo_randomBytes128Hex demo_newObjectId).
Abbreviation demo_login := (login demo_compare SendNull).
Abbreviation demo_sessions := (sessions demo_compare SendNull).
Abbreviation demo_run :=
  (run demo_hash demo_compare demo_genSalt demo_randomBytes128Hex demo_newObjectId SendNull).
Abbreviation demo_app :=
  (app demo_hash demo_compare demo_genSalt demo_randomBytes128Hex demo_newObjectId
       driver_default).

(** What the server does with alice's sign-up and log-in: the payload
    never reaches the handlers, both throw, the process is gone and the
    collection is as empty as before. *)
Example alice_signs_up :
  demo_app POST_register alice_signup empty_world = (inl TypeError, empty_world)
  /\ demo_app POST_login alice_signup empty_world = (inl TypeError, empty_world)
  /\ demo_run [Handle POST_register (received alice_signup);
               Handle GET_secrets (bearer "c0ffee2")] alice_world
     = alice_world.
Proof. repeat split. Qed.

(** * The theorems on concrete requests *)

Lemma secrets_iff_token_persisted_witness :
  connected alice_world = true
  /\ authorization (bearer "c0ffee2") = Some "c0ffee2"
  /\ fst (secrets SendNull (bearer "c0ffee2") alice_world) = inr (Send secret_response)
  /\ fst (findOne SendNull (ByAccessToken (Some "garbage")) alice_world) = inr None
  /\ fst (secrets SendNull (bearer "garbage") alice_world) = inr (Send please_log_in).
Proof.
  split; [reflexivity|]. split; [reflexivity|]. split.
  - apply (secrets_iff_token_persisted SendNull alice_world (bearer "c0ffee2") "c0ffee2");
      [reflexivity | reflexivity |].
    exists alice. split; [simpl; auto | reflexivity].
  - apply (secrets_iff_token_persisted SendNull alice_world (bearer "garbage") "garbage");
      [reflexivity | reflexivity |].
    intros u [<- | []]. discriminate.
Defined.



Lemma absent_header_answered_401_witness :
  authorization no_header = None
  /\ connected alice_world = true
  /\ calls (snd (secrets driver_default no_header alice_world))
     = calls alice_world ++ [CallFindOne (ByAccessToken None)]
  /\ fst (secrets driver_default no_header alice_world) = inr (Send please_log_in)
  /\ fst (authenticateUser driver_default no_header alice_world) = inr (Send please_log_in).
Proof.
  split; [reflexivity|]. split; [reflexivity|].
  destruct (absent_header_answered_401 driver_default no_header alice_world)
    as [Hcalls [_ [Hsecrets [Hmw _]]]]; try reflexivity.
  split; [exact Hcalls|]. split; [exact Hsecrets | exact Hmw].
Defined.

(** One account is persisted, the header is absent, and the answer is
    401, not the secret. *)
Lemma absent_header_with_account_rejected :
  docs alice_world = [alice]
  /\ connected alice_world = true
  /\ authorization no_header = None
  /\ fst (secrets driver_default no_header alice_world) = inr (Send please_log_in)
  /\ fst (secrets driver_default no_header alice_world) <> inr (Send secret_response)
  /\ status please_log_in = 401.
Proof. repeat split. discriminate. Qed.

(** * The further properties on concrete requests *)

Lemma to_uint_nonnil (n : nat) : Nat.to_uint n <> Decimal.Nil.
Proof.
  intros H. pose proof (Unsigned.of_to n) as E. rewrite H in E. simpl in E. subst n.
  discriminate H.
Qed.

Lemma decimal_inj (i j : nat) : decimal i = decimal j -> i = j.
Proof.
  unfold decimal. intros H. apply (f_equal NilZero.uint_of_string) in H.
  rewrite !NilZero.usu in H by apply to_uint_nonnil.
  injection H as H. now apply Unsigned.to_uint_inj.
Qed.

Lemma demo_randomBytes128Hex_inj (i j : nat) :
  demo_randomBytes128Hex i = demo_randomBytes128Hex j -> i = j.
Proof. unfold demo_randomBytes128Hex. simpl. intros [= H]. now apply decimal_inj. Qed.

Lemma alice_world_tokens_drawn : tokens_drawn demo_randomBytes128Hex alice_world.
Proof. intros u [<- | []]. exists 2. split; [simpl; lia | reflexivity]. Qed.

Lemma names_stay_unique_witness :
  let evs := [Handle POST_register (credentials "bob" "pw");
              Handle POST_register (credentials "alice" "again");
              Handle POST_login (credentials "alice" "pw")] in
  names_unique alice_world
  /\ names_unique (demo_run evs alice_world)
  /\ find (matches SendNull (ByName (Some "alice"))) (docs (demo_run evs alice_world))
     = Some alice.
Proof.
  intros evs.
  assert (H : names_unique alice_world) by (repeat constructor; simpl; tauto).
  split; [exact H|].
  destruct (names_stay_unique
              demo_hash demo_compare demo_genSalt demo_randomBytes128Hex demo_newObjectId
              SendNull evs alice_world H) as [Hu Hfind].
  split; [exact Hu|]. apply (Hfind alice). simpl. auto.
Defined.

Lemma tokens_stay_unique_witness :
  let evs := [Handle POST_register (credentials "bob" "pw");
              Handle POST_register (credentials "carol" "pw")] in
  tokens_unique alice_world
  /\ tokens_unique (demo_run evs alice_world)
  /\ find (matches SendNull (ByAccessToken (Some "c0ffee2"))) (docs (demo_run evs alice_world))
     = Some alice.
Proof.
  intros evs.
  assert (H : tokens_unique alice_world) by (repeat constructor; simpl; tauto).
  split; [exact H|].
  destruct (tokens_stay_unique
              demo_hash demo_compare demo_genSalt demo_randomBytes128Hex demo_newObjectId
              SendNull evs alice_world demo_randomBytes128Hex_inj
              alice_world_tokens_drawn H) as [Hu Hfind].
  split; [exact Hu|]. apply (Hfind alice). simpl. auto.
Defined.


Lemma middleware_decides_as_secrets_witness :
  fst (authenticateUser SendNull (bearer "garbage") alice_world) = inr (Send please_log_in)
  /\ fst (secrets SendNull (bearer "garbage") alice_world) = inr (Send please_log_in)
  /\ fst (secrets SendNull (bearer "c0ffee2") alice_world) = inr (Send secret_response)
  /\ fst (authenticateUser SendNull (bearer "c0ffee2") alice_world) = inr CallNext.
Proof.
  destruct (middleware_decides_as_secrets SendNull (bearer "garbage") alice_world)
    as [_ [Hsend _]].
  destruct (middleware_decides_as_secrets SendNull (bearer "c0ffee2") alice_world)
    as [Hnext _].
  split; [reflexivity|]. split; [apply Hsend; reflexivity|].
  split; [reflexivity|]. apply Hnext. reflexivity.
Defined.
